(** * NonBlockingDelay: a SysTick based non-blocking interval timer

    Shallow embedding of [NonBlockingDelay.c] / [NonBlockingDelay.h] and the
    properties of the interval check.

    - [uint32_t] values are integers of [Z]; the only arithmetic of the
      source that can leave the range (the increment of the tick counter and
      the subtraction inside [NonBlockingDelay_check]) has its reduction
      modulo 2^32 written out.
    - The global [systick_millis] and the [NonBlockingDelay] structs that the
      functions reach through their pointer argument live in a [Machine]:
      the counter and a finite map from addresses to structs.
    - A C function is a computation of the monad [M]: it reads and updates
      the machine, and it has no result when it dereferences an address at
      which no struct lives.
    - [CORE_ATOMIC_SECTION( x = systick_millis; )] is one untorn read of the
      counter: the interrupt handler runs between two primitive steps of the
      main context, never inside one.
    - [NonBlockingDelay_initSysTick] programs the hardware timer that calls
      [SysTick_Handler]; it touches neither the counter nor a timer. It is
      modelled over the two device functions it calls ([Hal]); the
      interrupts it starts are the [Tick] events of a run. *)

From Stdlib Require Import ZArith Lia List Bool.
From stdpp Require Import base option gmap.
Import ListNotations.

Local Open Scope Z_scope.

(** ** 32-bit unsigned arithmetic *)

Module U32.

Definition modulus : Z := 2 ^ 32.

(** The values of type [uint32_t]. *)
Definition uint32 (x : Z) : Prop := 0 <= x < modulus.

Definition wrap (x : Z) : Z := x mod modulus.

(** [a - b] on [uint32_t] operands. *)
Definition sub (a b : Z) : Z := wrap (a - b).

(** [a++] on a [uint32_t] object. *)
Definition incr (a : Z) : Z := wrap (a + 1).

End U32.

Abbreviation uint32 := U32.uint32.

(** ** The data of the program *)

(** [typedef struct { uint32_t interval_ms; uint32_t previousMillis; }
    NonBlockingDelay;] *)
Record NonBlockingDelay : Type := mkDelay {
  interval_ms : Z;
  previousMillis : Z
}.

(** Addresses of [NonBlockingDelay] objects. *)
Abbreviation ptr := N (only parsing).

(** The memory the library works on: the millisecond counter
    [volatile uint32_t systick_millis] and the timers of the application. *)
Record Machine : Type := mkMachine {
  systick_millis : Z;
  timers : gmap N NonBlockingDelay
}.

(** The machine [m] with the struct at [p] replaced. *)
Definition with_timer (p : N) (d : NonBlockingDelay) (m : Machine) : Machine :=
  mkMachine (systick_millis m) (<[p := d]> (timers m)).

(** ** Computations over the machine *)

Definition M (A : Type) : Type := Machine -> option (A * Machine).

Definition ret {A : Type} (a : A) : M A := fun m => Some (a, m).

Definition bind {A B : Type} (c : M A) (k : A -> M B) : M B :=
  fun m =>
    match c m with
    | Some (a, m') => k a m'
    | None => None
    end.

Notation "x <- c ;; k" := (bind c (fun x => k))
  (at level 100, c at next level, right associativity).
Notation "c ;; k" := (bind c (fun _ => k))
  (at level 100, right associativity).

(** [CORE_ATOMIC_SECTION( x = systick_millis; )] *)
Definition read_systick : M Z :=
  fun m => Some (systick_millis m, m).

(** [delay->interval_ms] and [delay->previousMillis] as rvalues. *)
Definition load_interval_ms (delay : ptr) : M Z :=
  fun m =>
    match timers m !! delay with
    | Some d => Some (interval_ms d, m)
    | None => None
    end.

Definition load_previousMillis (delay : ptr) : M Z :=
  fun m =>
    match timers m !! delay with
    | Some d => Some (previousMillis d, m)
    | None => None
    end.

(** [delay->interval_ms = v;] and [delay->previousMillis = v;] *)
Definition store_interval_ms (delay : ptr) (v : Z) : M unit :=
  fun m =>
    match timers m !! delay with
    | Some d =>
        Some (tt, mkMachine (systick_millis m)
                    (<[delay := mkDelay v (previousMillis d)]> (timers m)))
    | None => None
    end.

Definition store_previousMillis (delay : ptr) (v : Z) : M unit :=
  fun m =>
    match timers m !! delay with
    | Some d =>
        Some (tt, mkMachine (systick_millis m)
                    (<[delay := mkDelay (interval_ms d) v]> (timers m)))
    | None => None
    end.

(** ** The functions of [NonBlockingDelay.c] *)

(** [void SysTick_Handler(void) { systick_millis++; }] *)
Definition SysTick_Handler : M unit :=
  fun m => Some (tt, mkMachine (U32.incr (systick_millis m)) (timers m)).

(** [delay->interval_ms = interval_ms;] *)
Definition NonBlockingDelay_setInterval (delay : ptr) (interval : Z) : M unit :=
  store_interval_ms delay interval.

(** [CORE_ATOMIC_SECTION( delay->previousMillis = systick_millis; )] *)
Definition NonBlockingDelay_reset (delay : ptr) : M unit :=
  now <- read_systick ;;
  store_previousMillis delay now.

(** [NonBlockingDelay_setInterval(delay, interval_ms);
     NonBlockingDelay_reset(delay);] *)
Definition NonBlockingDelay_Init (delay : ptr) (interval : Z) : M unit :=
  NonBlockingDelay_setInterval delay interval ;;
  NonBlockingDelay_reset delay.

(** [CORE_ATOMIC_SECTION( currentMillis = systick_millis; )
     if ((currentMillis - delay->previousMillis) >= delay->interval_ms)
       { delay->previousMillis = currentMillis; return true; }
     else
       { return false; }] *)
Definition NonBlockingDelay_check (delay : ptr) : M bool :=
  currentMillis <- read_systick ;;
  prev <- load_previousMillis delay ;;
  interval <- load_interval_ms delay ;;
  if U32.sub currentMillis prev >=? interval
  then store_previousMillis delay currentMillis ;; ret true
  else ret false.

(** ** The environment of the library *)

(** [n] millisecond interrupts in a row. *)
Fixpoint ticks (n : nat) : M unit :=
  match n with
  | O => ret tt
  | S k => SysTick_Handler ;; ticks k
  end.

(** The counter after [n] increments, started at [c]. *)
Definition advance (n : nat) (c : Z) : Z := Nat.iter n U32.incr c.

(** The four operations on one timer, as the application calls them. *)
Inductive call : Type :=
| CallInit (interval : Z)
| CallSetInterval (interval : Z)
| CallReset
| CallCheck.

(** The value a call returns: [None] for the [void] functions. *)
Definition exec_call (c : call) (delay : ptr) : M (option bool) :=
  match c with
  | CallInit interval => NonBlockingDelay_Init delay interval ;; ret None
  | CallSetInterval interval =>
      NonBlockingDelay_setInterval delay interval ;; ret None
  | CallReset => NonBlockingDelay_reset delay ;; ret None
  | CallCheck => b <- NonBlockingDelay_check delay ;; ret (Some b)
  end.

(** What happens on the machine: the interrupt fires, or the main context
    calls the library on one of its timers. *)
Inductive event : Type :=
| Tick
| Call (delay : ptr) (c : call).

Definition step (e : event) : M unit :=
  match e with
  | Tick => SysTick_Handler
  | Call delay c => exec_call c delay ;; ret tt
  end.

Fixpoint run (es : list event) : M unit :=
  match es with
  | [] => ret tt
  | e :: es' => step e ;; run es'
  end.

(** The values the counter holds, one after the other, while [es] runs on a
    machine whose counter is at [c]. *)
Fixpoint counter_values (c : Z) (es : list event) : list Z :=
  match es with
  | [] => [c]
  | Tick :: es' => c :: counter_values (U32.incr c) es'
  | Call _ _ :: es' => counter_values c es'
  end.

(** The main loop of the usage example, polling one timer once per
    millisecond: the number of interrupts seen before the check fires. *)
Fixpoint wait_ticks (fuel : nat) (delay : ptr) : M (option nat) :=
  match fuel with
  | O => ret None
  | S fuel' =>
      fired <- NonBlockingDelay_check delay ;;
      if fired then ret (Some O)
      else SysTick_Handler ;;
           r <- wait_ticks fuel' delay ;;
           ret (option_map S r)
  end.

(** The state of a machine in which the counter and every field of every
    timer are [uint32_t] values. *)
Definition wf_machine (m : Machine) : Prop :=
  uint32 (systick_millis m) /\
  forall p d, timers m !! p = Some d ->
    uint32 (interval_ms d) /\ uint32 (previousMillis d).

Definition wf_call (c : call) : Prop :=
  match c with
  | CallInit interval | CallSetInterval interval => uint32 interval
  | CallReset | CallCheck => True
  end.

Definition wf_event (e : event) : Prop :=
  match e with
  | Tick => True
  | Call _ c => wf_call c
  end.

(** The value a call returns and the contents it leaves in the struct,
    computed from the contents [d] of the struct before the call and the
    value [now] the call reads from the counter. *)
Definition call_outcome (c : call) (now : Z) (d : NonBlockingDelay)
  : option bool * NonBlockingDelay :=
  match c with
  | CallInit interval => (None, mkDelay interval now)
  | CallSetInterval interval => (None, mkDelay interval (previousMillis d))
  | CallReset => (None, mkDelay (interval_ms d) now)
  | CallCheck =>
      if U32.sub now (previousMillis d) >=? interval_ms d
      then (Some true, mkDelay (interval_ms d) now)
      else (Some false, d)
  end.

(** The timer at [p] exists and its mark is one of the values [past] that
    the counter has held. *)
Definition mark_held (past : list Z) (p : N) (m : Machine) : Prop :=
  exists d, timers m !! p = Some d /\ In (previousMillis d) past.

(** A machine whose counter is at [now] and whose only timer lives at
    address 1. *)
Definition one_timer (now interval prev : Z) : Machine :=
  mkMachine now {[ 1%N := mkDelay interval prev ]}.

(** ** The main loop under a polling schedule *)

(** The main loop of the usage example when its iterations come at the
    given distances: [g] interrupts, then one call of
    [NonBlockingDelay_check], for each [g] of the schedule. The result is
    what the calls returned, in order. *)
Fixpoint poll (gaps : list nat) (delay : ptr) : M (list bool) :=
  match gaps with
  | [] => ret []
  | g :: gaps' =>
      ticks g ;;
      b <- NonBlockingDelay_check delay ;;
      bs <- poll gaps' delay ;;
      ret (b :: bs)
  end.

(** A timer on unbounded time, for comparison: [elapsed] milliseconds have
    passed since it last fired or was reset; it fires at the first poll at
    which the interval is reached and starts over from there. *)
Fixpoint ideal_timer (interval elapsed : Z) (gaps : list nat) : list bool :=
  match gaps with
  | [] => []
  | g :: gaps' =>
      let elapsed' := elapsed + Z.of_nat g in
      if elapsed' >=? interval
      then true :: ideal_timer interval 0 gaps'
      else false :: ideal_timer interval elapsed' gaps'
  end.

(** The number of interrupts in a run. *)
Fixpoint tick_count (es : list event) : nat :=
  match es with
  | [] => O
  | Tick :: es' => S (tick_count es')
  | Call _ _ :: es' => tick_count es'
  end.

(** The events the timer at [p] can notice: interrupts and its own calls. *)
Definition concerns (p : N) (e : event) : bool :=
  match e with
  | Tick => true
  | Call q _ => N.eqb q p
  end.

(** Two machines that show the same counter and the same timer at [p]. *)
Definition same_view (p : N) (m1 m2 : Machine) : Prop :=
  systick_millis m1 = systick_millis m2 /\
  timers m1 !! p = timers m2 !! p.

(** ** Start-up of the time base *)

(** The two functions of the device library that
    [NonBlockingDelay_initSysTick] calls, over the state [H] of the
    hardware: [CMU_ClockFreqGet(cmuClock_CORE)], which reads the core clock
    frequency in Hz, and [SysTick_Config], which programs the timer and
    returns 0 on success. *)
Record Hal (H : Type) : Type := mkHal {
  CMU_ClockFreqGet_CORE : H -> Z;
  SysTick_Config : Z -> H -> Z * H
}.

Arguments CMU_ClockFreqGet_CORE {H} _ _.
Arguments SysTick_Config {H} _ _ _.

(** How a call ends: it returns, or it is caught in [while (1);]. *)
Inductive ending (H : Type) : Type :=
| Returns (h : H)
| HangsForever (h : H).

Arguments Returns {H} _.
Arguments HangsForever {H} _.

(** [uint32_t coreFrequency = CMU_ClockFreqGet(cmuClock_CORE);
     uint32_t ticks = coreFrequency / 1000;
     if (ticks == 0) { while (1); }
     if (SysTick_Config(ticks) != 0) { while (1); }] *)
Definition NonBlockingDelay_initSysTick {H : Type} (hal : Hal H) (h : H)
  : ending H :=
  let coreFrequency := CMU_ClockFreqGet_CORE hal h in
  let ticks := coreFrequency / 1000 in
  if ticks =? 0 then HangsForever h
  else
    let (rc, h') := SysTick_Config hal ticks h in
    if negb (rc =? 0) then HangsForever h' else Returns h'.

(** A device for experiments: the clock runs at [freq] Hz, the state is the
    list of reload values requested so far, and a request is refused when
    it does not fit the 24 bits of the reload register. *)
Definition bench_hal (freq : Z) : Hal (list Z) :=
  mkHal (list Z)
    (fun _ => freq)
    (fun t log => (if t - 1 >? 16777215 then 1 else 0, log ++ [t])).

(** * Arithmetic modulo 2^32 *)

Section Arith32.

Lemma modulus_pos : 0 < U32.modulus.
Proof. reflexivity. Qed.

Lemma wrap_range (x : Z) : uint32 (U32.wrap x).
Proof. unfold U32.uint32, U32.wrap. apply Z.mod_pos_bound, modulus_pos. Qed.

Lemma wrap_uint32 (x : Z) : uint32 x -> U32.wrap x = x.
Proof. unfold U32.uint32, U32.wrap. intros Hx. now apply Z.mod_small. Qed.

Lemma wrap_wrap (x : Z) : U32.wrap (U32.wrap x) = U32.wrap x.
Proof. apply wrap_uint32, wrap_range. Qed.

Lemma sub_range (a b : Z) : uint32 (U32.sub a b).
Proof. apply wrap_range. Qed.

Lemma sub_diag (a : Z) : U32.sub a a = 0.
Proof. unfold U32.sub. now rewrite Z.sub_diag. Qed.

Lemma sub_wrap_l (a b : Z) : U32.sub (U32.wrap a) b = U32.sub a b.
Proof.
  unfold U32.sub, U32.wrap.
  now rewrite Zminus_mod_idemp_l.
Qed.

(** Moving the counter forward by [k] and subtracting the start gives [k]
    back, reduced modulo 2^32. *)
Lemma sub_add_cancel (c k : Z) : U32.sub (U32.wrap (c + k)) c = U32.wrap k.
Proof.
  rewrite sub_wrap_l. unfold U32.sub. f_equal. lia.
Qed.

Lemma incr_range (c : Z) : uint32 (U32.incr c).
Proof. apply wrap_range. Qed.

Lemma advance_S (n : nat) (c : Z) :
  advance (S n) c = U32.incr (advance n c).
Proof. reflexivity. Qed.

Lemma advance_comm (n : nat) (c : Z) :
  advance n (U32.incr c) = U32.incr (advance n c).
Proof.
  induction n as [|n IH]; [reflexivity|].
  now rewrite !advance_S, IH.
Qed.

(** [n] increments add [n] modulo 2^32. *)
Lemma wrap_advance (n : nat) (c : Z) :
  U32.wrap (advance n c) = U32.wrap (c + Z.of_nat n).
Proof.
  induction n as [|n IH].
  - cbn. now rewrite Z.add_0_r.
  - rewrite advance_S. unfold U32.incr. rewrite wrap_wrap.
    unfold U32.wrap in *.
    rewrite <- Zplus_mod_idemp_l, IH, Zplus_mod_idemp_l.
    f_equal. lia.
Qed.

Lemma advance_uint32 (n : nat) (c : Z) :
  uint32 c -> advance n c = U32.wrap (c + Z.of_nat n).
Proof.
  intros Hc. rewrite <- wrap_advance. symmetry. apply wrap_uint32.
  destruct n as [|n]; [exact Hc|]. rewrite advance_S. apply incr_range.
Qed.

Lemma advance_range (n : nat) (c : Z) : uint32 c -> uint32 (advance n c).
Proof.
  intros Hc. rewrite advance_uint32 by exact Hc. apply wrap_range.
Qed.

(** The subtraction of [NonBlockingDelay_check] recovers the number of
    increments, whatever the start of the counter. *)
Lemma sub_advance (n : nat) (c : Z) :
  U32.sub (advance n c) c = U32.wrap (Z.of_nat n).
Proof.
  rewrite <- sub_wrap_l, wrap_advance. apply sub_add_cancel.
Qed.

End Arith32.

(** * What each function does to the machine *)

Section Operations.

Implicit Types (m : Machine) (p q : N) (d : NonBlockingDelay).

Lemma with_timer_lookup p d m : timers (with_timer p d m) !! p = Some d.
Proof. apply lookup_insert_eq. Qed.

Lemma with_timer_lookup_ne p q d m :
  p <> q -> timers (with_timer p d m) !! q = timers m !! q.
Proof. intros Hne. now apply lookup_insert_ne. Qed.

Lemma with_timer_systick p d m :
  systick_millis (with_timer p d m) = systick_millis m.
Proof. reflexivity. Qed.

Lemma with_timer_id p d m : timers m !! p = Some d -> with_timer p d m = m.
Proof.
  intros Hp. destruct m as [c ts]. unfold with_timer. cbn in *.
  f_equal. now apply insert_id.
Qed.

Lemma with_timer_twice p d d' m :
  with_timer p d' (with_timer p d m) = with_timer p d' m.
Proof. unfold with_timer. cbn. f_equal. apply insert_insert_eq. Qed.

Lemma SysTick_Handler_eq m :
  SysTick_Handler m =
  Some (tt, mkMachine (U32.incr (systick_millis m)) (timers m)).
Proof. reflexivity. Qed.

Lemma setInterval_eq p d m interval :
  timers m !! p = Some d ->
  NonBlockingDelay_setInterval p interval m =
  Some (tt, with_timer p (mkDelay interval (previousMillis d)) m).
Proof.
  intros Hp. unfold NonBlockingDelay_setInterval, store_interval_ms.
  now rewrite Hp.
Qed.

Lemma reset_eq p d m :
  timers m !! p = Some d ->
  NonBlockingDelay_reset p m =
  Some (tt, with_timer p (mkDelay (interval_ms d) (systick_millis m)) m).
Proof.
  intros Hp.
  unfold NonBlockingDelay_reset, bind, read_systick, store_previousMillis.
  now rewrite Hp.
Qed.

Lemma Init_eq p d m interval :
  timers m !! p = Some d ->
  NonBlockingDelay_Init p interval m =
  Some (tt, with_timer p (mkDelay interval (systick_millis m)) m).
Proof.
  intros Hp. unfold NonBlockingDelay_Init, bind.
  rewrite (setInterval_eq p d) by exact Hp.
  rewrite (reset_eq p (mkDelay interval (previousMillis d)))
    by apply with_timer_lookup.
  cbn [interval_ms]. now rewrite with_timer_systick, with_timer_twice.
Qed.

Lemma check_eq p d m :
  timers m !! p = Some d ->
  NonBlockingDelay_check p m =
  if U32.sub (systick_millis m) (previousMillis d) >=? interval_ms d
  then Some (true, with_timer p (mkDelay (interval_ms d) (systick_millis m)) m)
  else Some (false, m).
Proof.
  intros Hp.
  unfold NonBlockingDelay_check, bind, read_systick,
    load_previousMillis, load_interval_ms.
  rewrite Hp; cbv beta iota. rewrite Hp; cbv beta iota.
  destruct (U32.sub (systick_millis m) (previousMillis d) >=? interval_ms d);
    [|reflexivity].
  unfold store_previousMillis. now rewrite Hp.
Qed.

(** A function called on an address that holds no timer has no result. *)
Lemma exec_call_dangling c p m :
  timers m !! p = None -> exec_call c p m = None.
Proof.
  intros Hp.
  destruct c; unfold exec_call, bind, NonBlockingDelay_Init,
    NonBlockingDelay_setInterval, NonBlockingDelay_reset,
    NonBlockingDelay_check, bind, read_systick, load_previousMillis,
    store_interval_ms, store_previousMillis; now rewrite ?Hp.
Qed.

Lemma geb_true_iff (a b : Z) : (a >=? b) = true <-> b <= a.
Proof. rewrite Z.geb_leb. apply Z.leb_le. Qed.

Lemma geb_false_iff (a b : Z) : (a >=? b) = false <-> a < b.
Proof. rewrite Z.geb_leb. apply Z.leb_gt. Qed.

Lemma ticks_eq n m :
  ticks n m = Some (tt, mkMachine (advance n (systick_millis m)) (timers m)).
Proof.
  revert m. induction n as [|n IH]; intros m.
  - now destruct m.
  - cbn [ticks]. unfold bind. rewrite SysTick_Handler_eq, IH. cbn.
    now rewrite advance_comm.
Qed.

End Operations.

(** * The interval check *)

Section Check.

Implicit Types (m : Machine) (p q : N) (d : NonBlockingDelay).

(** C1: [NonBlockingDelay_check] returns true exactly when
    [(now - previousMillis) mod 2^32 >= interval_ms], where [now] is the
    value of the tick counter it reads; when it returns true the only change
    to the machine is that [previousMillis] of the timer becomes [now]; when
    it returns false the machine is unchanged. *)
Theorem check_iff_elapsed m p d :
  timers m !! p = Some d ->
  exists b m',
    NonBlockingDelay_check p m = Some (b, m') /\
    (b = true <->
     (systick_millis m - previousMillis d) mod 2 ^ 32 >= interval_ms d) /\
    (b = true ->
     m' = with_timer p (mkDelay (interval_ms d) (systick_millis m)) m) /\
    (b = false -> m' = m).
Proof.
  intros Hp. rewrite (check_eq p d m Hp).
  change ((systick_millis m - previousMillis d) mod 2 ^ 32)
    with (U32.sub (systick_millis m) (previousMillis d)).
  destruct (U32.sub (systick_millis m) (previousMillis d) >=? interval_ms d)
    eqn:Hcmp.
  - apply geb_true_iff in Hcmp.
    eexists true, _. split; [reflexivity|].
    repeat split; try reflexivity; try discriminate. lia.
  - apply geb_false_iff in Hcmp.
    eexists false, _. split; [reflexivity|].
    repeat split; try reflexivity; try discriminate. lia.
Qed.

Lemma check_iff_elapsed_witness :
  timers (one_timer 1500 1000 250) !! 1%N = Some (mkDelay 1000 250) /\
  exists b m',
    NonBlockingDelay_check 1%N (one_timer 1500 1000 250) = Some (b, m') /\
    (b = true <-> (1500 - 250) mod 2 ^ 32 >= 1000) /\
    (b = true ->
     m' = with_timer 1%N (mkDelay 1000 1500) (one_timer 1500 1000 250)) /\
    (b = false -> m' = one_timer 1500 1000 250).
Proof.
  split; [reflexivity|].
  apply (check_iff_elapsed (one_timer 1500 1000 250) 1%N (mkDelay 1000 250)).
  reflexivity.
Defined.

(** C2: with [last_mark] the value of the counter at some instant and [n]
    interrupts since, [n < 2^32], the subtraction [(now - last_mark) mod 2^32]
    of [NonBlockingDelay_check] is [n], whether or not the counter went
    through 2^32 on the way; so a timer marked at that instant fires exactly
    when its interval is at most [n]. *)
Theorem wraparound_subtraction_is_elapsed m (n : nat) :
  uint32 (systick_millis m) ->
  Z.of_nat n < 2 ^ 32 ->
  exists m',
    ticks n m = Some (tt, m') /\
    uint32 (systick_millis m') /\
    (systick_millis m' - systick_millis m) mod 2 ^ 32 = Z.of_nat n /\
    forall p d,
      timers m !! p = Some d ->
      previousMillis d = systick_millis m ->
      exists b m'',
        NonBlockingDelay_check p m' = Some (b, m'') /\
        (b = true <-> interval_ms d <= Z.of_nat n).
Proof.
  intros Hc Hn. rewrite ticks_eq. eexists. split; [reflexivity|].
  cbn [systick_millis timers].
  assert (Hsub : U32.sub (advance n (systick_millis m)) (systick_millis m)
                 = Z.of_nat n).
  { rewrite sub_advance. apply wrap_uint32. unfold U32.uint32, U32.modulus.
    lia. }
  split; [now apply advance_range|]. split; [exact Hsub|].
  intros p d Hp Hprev.
  rewrite (check_eq p d) by exact Hp.
  cbn [systick_millis]. rewrite Hprev, Hsub.
  destruct (Z.of_nat n >=? interval_ms d) eqn:Hcmp.
  - apply geb_true_iff in Hcmp. eexists true, _. now split.
  - apply geb_false_iff in Hcmp. eexists false, _.
    split; [reflexivity|]. split; [discriminate|lia].
Qed.

Lemma wraparound_subtraction_is_elapsed_witness :
  uint32 4294967290 /\ Z.of_nat 10 < 2 ^ 32 /\
  exists m',
    ticks 10 (one_timer 4294967290 10 4294967290) = Some (tt, m') /\
    uint32 (systick_millis m') /\
    (systick_millis m' - 4294967290) mod 2 ^ 32 = Z.of_nat 10 /\
    forall p d,
      timers (one_timer 4294967290 10 4294967290) !! p = Some d ->
      previousMillis d = 4294967290 ->
      exists b m'',
        NonBlockingDelay_check p m' = Some (b, m'') /\
        (b = true <-> interval_ms d <= Z.of_nat 10).
Proof.
  split; [unfold U32.uint32, U32.modulus; lia|].
  split; [reflexivity|].
  apply (wraparound_subtraction_is_elapsed
           (one_timer 4294967290 10 4294967290) 10).
  - unfold U32.uint32, U32.modulus; cbn; lia.
  - reflexivity.
Defined.

(** C4: a timer whose [interval_ms] is 0 reports elapsed on every call,
    whatever the counter and whatever [previousMillis]; its interval is
    still 0 afterwards, so the next call does the same. *)
Theorem zero_interval_always_elapsed m p d :
  timers m !! p = Some d ->
  interval_ms d = 0 ->
  exists m' d',
    NonBlockingDelay_check p m = Some (true, m') /\
    timers m' !! p = Some d' /\ interval_ms d' = 0.
Proof.
  intros Hp Hz. rewrite (check_eq p d m Hp), Hz.
  pose proof (sub_range (systick_millis m) (previousMillis d)) as [Hlo _].
  destruct (U32.sub (systick_millis m) (previousMillis d) >=? 0) eqn:Hcmp.
  - eexists _, _. split; [reflexivity|].
    split; [apply with_timer_lookup|reflexivity].
  - apply geb_false_iff in Hcmp. lia.
Qed.

Lemma zero_interval_always_elapsed_witness :
  timers (one_timer 7 0 4000000000) !! 1%N = Some (mkDelay 0 4000000000) /\
  interval_ms (mkDelay 0 4000000000) = 0 /\
  exists m' d',
    NonBlockingDelay_check 1%N (one_timer 7 0 4000000000) = Some (true, m') /\
    timers m' !! 1%N = Some d' /\ interval_ms d' = 0.
Proof.
  split; [reflexivity|]. split; [reflexivity|].
  apply (zero_interval_always_elapsed
           (one_timer 7 0 4000000000) 1%N (mkDelay 0 4000000000));
    reflexivity.
Defined.

(** C5: [NonBlockingDelay_reset] followed at once by
    [NonBlockingDelay_check], the counter unchanged in between, returns true
    if and only if [interval_ms] is 0. *)
Theorem reset_then_check m p d :
  timers m !! p = Some d ->
  uint32 (interval_ms d) ->
  exists b m',
    (NonBlockingDelay_reset p ;; NonBlockingDelay_check p) m = Some (b, m') /\
    (b = true <-> interval_ms d = 0).
Proof.
  intros Hp [Hlo _]. unfold bind. rewrite (reset_eq p d m Hp).
  rewrite (check_eq p (mkDelay (interval_ms d) (systick_millis m)))
    by apply with_timer_lookup.
  cbn [interval_ms previousMillis]. rewrite with_timer_systick, sub_diag.
  destruct (0 >=? interval_ms d) eqn:Hcmp.
  - apply geb_true_iff in Hcmp. eexists true, _.
    split; [reflexivity|]. split; [lia|reflexivity].
  - apply geb_false_iff in Hcmp. eexists false, _.
    split; [reflexivity|]. split; [discriminate|lia].
Qed.

Lemma reset_then_check_witness :
  timers (one_timer 1234 500 17) !! 1%N = Some (mkDelay 500 17) /\
  uint32 (interval_ms (mkDelay 500 17)) /\
  exists b m',
    (NonBlockingDelay_reset 1%N ;; NonBlockingDelay_check 1%N)
      (one_timer 1234 500 17) = Some (b, m') /\
    (b = true <-> interval_ms (mkDelay 500 17) = 0).
Proof.
  split; [reflexivity|].
  split; [unfold U32.uint32, U32.modulus; cbn; lia|].
  apply (reset_then_check (one_timer 1234 500 17) 1%N (mkDelay 500 17)).
  - reflexivity.
  - unfold U32.uint32, U32.modulus; cbn; lia.
Defined.

(** C3 does not hold for an interval of 0: the timer at address 1 fires at
    counter 5 and, the counter still at 5, fires again. *)
Lemma check_after_true_counterexample :
  NonBlockingDelay_check 1%N (one_timer 5 0 2) = Some (true, one_timer 5 0 5) /\
  NonBlockingDelay_check 1%N (one_timer 5 0 5) = Some (true, one_timer 5 0 5).
Proof. split; reflexivity. Qed.

(** C3 (amended): right after [NonBlockingDelay_check] returned true, a
    second call with the counter unchanged returns false when [interval_ms]
    is not 0, and true when it is 0; the machine stays as the first call
    left it. *)
Theorem check_after_true m p d m1 :
  timers m !! p = Some d ->
  uint32 (interval_ms d) ->
  NonBlockingDelay_check p m = Some (true, m1) ->
  exists b,
    NonBlockingDelay_check p m1 = Some (b, m1) /\
    (interval_ms d <> 0 -> b = false) /\
    (interval_ms d = 0 -> b = true).
Proof.
  intros Hp [Hlo _] Hfirst. rewrite (check_eq p d m Hp) in Hfirst.
  destruct (U32.sub (systick_millis m) (previousMillis d) >=? interval_ms d);
    [|discriminate].
  injection Hfirst as <-.
  rewrite (check_eq p (mkDelay (interval_ms d) (systick_millis m)))
    by apply with_timer_lookup.
  cbn [interval_ms previousMillis]. rewrite with_timer_systick, sub_diag.
  destruct (0 >=? interval_ms d) eqn:Hcmp.
  - apply geb_true_iff in Hcmp. exists true.
    rewrite with_timer_twice. split; [reflexivity|]. split; [lia|reflexivity].
  - apply geb_false_iff in Hcmp. exists false.
    split; [reflexivity|]. split; [reflexivity|lia].
Qed.

Lemma check_after_true_witness :
  timers (one_timer 1500 1000 250) !! 1%N = Some (mkDelay 1000 250) /\
  uint32 (interval_ms (mkDelay 1000 250)) /\
  NonBlockingDelay_check 1%N (one_timer 1500 1000 250)
    = Some (true, one_timer 1500 1000 1500) /\
  exists b,
    NonBlockingDelay_check 1%N (one_timer 1500 1000 1500)
      = Some (b, one_timer 1500 1000 1500) /\
    (interval_ms (mkDelay 1000 250) <> 0 -> b = false) /\
    (interval_ms (mkDelay 1000 250) = 0 -> b = true).
Proof.
  split; [reflexivity|].
  split; [unfold U32.uint32, U32.modulus; cbn; lia|].
  split; [reflexivity|].
  apply (check_after_true (one_timer 1500 1000 250) 1%N (mkDelay 1000 250)).
  - reflexivity.
  - unfold U32.uint32, U32.modulus; cbn; lia.
  - reflexivity.
Defined.

Lemma advance_add (n k : nat) (c : Z) :
  advance k (advance n c) = advance (k + n) c.
Proof. unfold advance. symmetry. apply Nat.iter_add. Qed.

(** C6: [NonBlockingDelay_setInterval] stores the new interval and changes
    nothing else: not [previousMillis], not the counter, not another timer.
    So when the timer was reset, [n] interrupts passed, the interval was
    changed, and [k] more interrupts passed, the check compares the new
    interval with the [n + k] milliseconds since the reset, not with the [k]
    since the change. *)
Theorem setInterval_keeps_mark m p d interval :
  timers m !! p = Some d ->
  (exists m',
     NonBlockingDelay_setInterval p interval m = Some (tt, m') /\
     timers m' !! p = Some (mkDelay interval (previousMillis d)) /\
     systick_millis m' = systick_millis m /\
     forall q, q <> p -> timers m' !! q = timers m !! q) /\
  (forall n k : nat,
     Z.of_nat n + Z.of_nat k < 2 ^ 32 ->
     exists b m',
       (NonBlockingDelay_reset p ;; ticks n ;;
        NonBlockingDelay_setInterval p interval ;; ticks k ;;
        NonBlockingDelay_check p) m = Some (b, m') /\
       (b = true <-> interval <= Z.of_nat n + Z.of_nat k)).
Proof.
  intros Hp. split.
  - rewrite (setInterval_eq p d m interval Hp). eexists. split; [reflexivity|].
    split; [apply with_timer_lookup|]. split; [reflexivity|].
    intros q Hq. now apply with_timer_lookup_ne.
  - intros n k Hnk. unfold bind at 1. rewrite (reset_eq p d m Hp).
    set (c := systick_millis m).
    unfold bind at 1. rewrite ticks_eq. cbn [systick_millis timers with_timer].
    unfold bind at 1.
    rewrite (setInterval_eq p (mkDelay (interval_ms d) c))
      by apply lookup_insert_eq.
    unfold bind at 1. rewrite ticks_eq.
    cbn [systick_millis timers with_timer previousMillis].
    rewrite advance_add.
    rewrite (check_eq p (mkDelay interval c)) by apply lookup_insert_eq.
    cbn [systick_millis interval_ms previousMillis].
    rewrite sub_advance, wrap_uint32
      by (unfold U32.uint32, U32.modulus; lia).
    destruct (Z.of_nat (k + n) >=? interval) eqn:Hcmp.
    + apply geb_true_iff in Hcmp. eexists true, _.
      split; [reflexivity|]. split; [lia|reflexivity].
    + apply geb_false_iff in Hcmp. eexists false, _.
      split; [reflexivity|]. split; [discriminate|lia].
Qed.

Lemma setInterval_keeps_mark_witness :
  timers (one_timer 100 1000 40) !! 1%N = Some (mkDelay 1000 40) /\
  (exists m',
     NonBlockingDelay_setInterval 1%N 300 (one_timer 100 1000 40)
       = Some (tt, m') /\
     timers m' !! 1%N = Some (mkDelay 300 (previousMillis (mkDelay 1000 40))) /\
     systick_millis m' = systick_millis (one_timer 100 1000 40) /\
     forall q, q <> 1%N ->
       timers m' !! q = timers (one_timer 100 1000 40) !! q) /\
  (forall n k : nat,
     Z.of_nat n + Z.of_nat k < 2 ^ 32 ->
     exists b m',
       (NonBlockingDelay_reset 1%N ;; ticks n ;;
        NonBlockingDelay_setInterval 1%N 300 ;; ticks k ;;
        NonBlockingDelay_check 1%N) (one_timer 100 1000 40) = Some (b, m') /\
       (b = true <-> 300 <= Z.of_nat n + Z.of_nat k)).
Proof.
  split; [reflexivity|].
  apply (setInterval_keeps_mark (one_timer 100 1000 40) 1%N
           (mkDelay 1000 40) 300).
  reflexivity.
Defined.

(** C7: [NonBlockingDelay_Init] is [NonBlockingDelay_setInterval] followed
    by [NonBlockingDelay_reset]; whatever the struct held before, it holds
    the given interval and the value of the counter afterwards, and nothing
    else on the machine has changed. *)
Theorem Init_is_setInterval_then_reset m p d interval :
  timers m !! p = Some d ->
  NonBlockingDelay_Init p interval m =
    (NonBlockingDelay_setInterval p interval ;; NonBlockingDelay_reset p) m /\
  NonBlockingDelay_Init p interval m =
    Some (tt, with_timer p (mkDelay interval (systick_millis m)) m) /\
  forall m', NonBlockingDelay_Init p interval m = Some (tt, m') ->
    timers m' !! p = Some (mkDelay interval (systick_millis m)) /\
    systick_millis m' = systick_millis m /\
    forall q, q <> p -> timers m' !! q = timers m !! q.
Proof.
  intros Hp. split; [reflexivity|].
  rewrite (Init_eq p d m interval Hp). split; [reflexivity|].
  intros m' [= <-]. split; [apply with_timer_lookup|].
  split; [reflexivity|]. intros q Hq. now apply with_timer_lookup_ne.
Qed.

Lemma Init_is_setInterval_then_reset_witness :
  timers (one_timer 100 77 4000000000) !! 1%N = Some (mkDelay 77 4000000000) /\
  NonBlockingDelay_Init 1%N 1000 (one_timer 100 77 4000000000) =
    Some (tt, one_timer 100 1000 100).
Proof.
  split; [reflexivity|].
  exact (proj1 (proj2 (Init_is_setInterval_then_reset
                         (one_timer 100 77 4000000000) 1%N
                         (mkDelay 77 4000000000) 1000 eq_refl))).
Defined.

(** ** Re-arming *)

(** A timer marked at [c0], polled once per millisecond from the [j]-th
    millisecond after the mark, fires for the first time when the counter
    has moved [interval_ms] times from [c0]. *)
Lemma wait_ticks_from_mark p (interval c0 : Z) (r : nat) :
  uint32 interval ->
  forall (j fuel : nat) m,
    (j + r)%nat = Z.to_nat interval ->
    (r < fuel)%nat ->
    timers m !! p = Some (mkDelay interval c0) ->
    systick_millis m = advance j c0 ->
    wait_ticks fuel p m =
    Some (Some r,
          mkMachine (advance (j + r) c0)
            (<[p := mkDelay interval (advance (j + r) c0)]> (timers m))).
Proof.
  intros [Hlo Hhi]. unfold U32.modulus in Hhi.
  induction r as [|r IH]; intros j fuel m Hjr Hfuel Hp Hc;
    (destruct fuel as [|fuel]; [lia|]); cbn [wait_ticks]; unfold bind at 1;
    rewrite (check_eq p _ m Hp); cbn [interval_ms previousMillis];
    rewrite Hc, sub_advance, wrap_uint32
      by (unfold U32.uint32, U32.modulus; lia).
  - replace (Z.of_nat j >=? interval) with true
      by (symmetry; apply geb_true_iff; lia).
    unfold ret, with_timer. rewrite Nat.add_0_r, Hc. reflexivity.
  - replace (Z.of_nat j >=? interval) with false
      by (symmetry; apply geb_false_iff; lia).
    unfold bind at 1. rewrite SysTick_Handler_eq. unfold bind at 1.
    rewrite (IH (S j) fuel); cbn [timers systick_millis];
      [|lia|lia|exact Hp|now rewrite Hc].
    unfold ret. cbn [option_map]. now rewrite Nat.add_succ_r.
Qed.

(** C9: a check that returns true at counter value [now] marks the timer at
    [now] itself, which is not [previousMillis + interval_ms] when the poll
    came late. From there the timer stays silent for every number of
    interrupts below [interval_ms] and fires after exactly [interval_ms] of
    them, the counter then at [(now + interval_ms) mod 2^32]; a loop that
    polls once per millisecond sees its first true result at that
    instant. *)
Theorem check_rearms_from_now m p d m1 :
  timers m !! p = Some d ->
  uint32 (interval_ms d) ->
  uint32 (systick_millis m) ->
  NonBlockingDelay_check p m = Some (true, m1) ->
  timers m1 !! p = Some (mkDelay (interval_ms d) (systick_millis m)) /\
  ((systick_millis m - previousMillis d) mod 2 ^ 32 > interval_ms d ->
   systick_millis m <> (previousMillis d + interval_ms d) mod 2 ^ 32) /\
  (forall k : nat,
     Z.of_nat k < interval_ms d ->
     exists m2,
       (ticks k ;; NonBlockingDelay_check p) m1 = Some (false, m2)) /\
  (exists m2,
     (ticks (Z.to_nat (interval_ms d)) ;; NonBlockingDelay_check p) m1
       = Some (true, m2) /\
     systick_millis m2 = (systick_millis m + interval_ms d) mod 2 ^ 32) /\
  (forall fuel : nat,
     (Z.to_nat (interval_ms d) < fuel)%nat ->
     exists m2,
       wait_ticks fuel p m1 = Some (Some (Z.to_nat (interval_ms d)), m2) /\
       systick_millis m2 = (systick_millis m + interval_ms d) mod 2 ^ 32).
Proof.
  intros Hp [Hlo Hhi] Hnow Hfirst.
  pose proof Hhi as Hhi'. unfold U32.modulus in Hhi'.
  rewrite (check_eq p d m Hp) in Hfirst.
  destruct (U32.sub (systick_millis m) (previousMillis d) >=? interval_ms d);
    [|discriminate].
  injection Hfirst as <-.
  set (c := systick_millis m) in *. set (iv := interval_ms d) in *.
  assert (Hp1 : timers (with_timer p (mkDelay iv c) m) !! p
                = Some (mkDelay iv c)) by apply with_timer_lookup.
  split; [exact Hp1|]. split; [|split; [|split]].
  - intros Hlate Heq.
    change ((c - previousMillis d) mod 2 ^ 32)
      with (U32.sub c (previousMillis d)) in Hlate.
    change ((previousMillis d + iv) mod 2 ^ 32)
      with (U32.wrap (previousMillis d + iv)) in Heq.
    rewrite Heq, sub_add_cancel, wrap_uint32 in Hlate
      by (split; assumption).
    lia.
  - intros k Hk. unfold bind. rewrite ticks_eq.
    rewrite (check_eq p (mkDelay iv c)) by exact Hp1.
    cbn [systick_millis interval_ms previousMillis with_timer].
    rewrite sub_advance, wrap_uint32
      by (unfold U32.uint32, U32.modulus; lia).
    replace (Z.of_nat k >=? iv) with false
      by (symmetry; apply geb_false_iff; lia).
    eexists. reflexivity.
  - unfold bind. rewrite ticks_eq.
    rewrite (check_eq p (mkDelay iv c)) by exact Hp1.
    cbn [systick_millis interval_ms previousMillis with_timer].
    rewrite sub_advance, wrap_uint32
      by (unfold U32.uint32, U32.modulus; lia).
    replace (Z.of_nat (Z.to_nat iv) >=? iv) with true
      by (symmetry; apply geb_true_iff; lia).
    eexists. split; [reflexivity|].
    rewrite with_timer_systick. cbn [systick_millis].
    rewrite advance_uint32 by exact Hnow. unfold U32.wrap, U32.modulus.
    f_equal. lia.
  - intros fuel Hfuel.
    rewrite (wait_ticks_from_mark p iv c (Z.to_nat iv) (conj Hlo Hhi)
               0%nat fuel _ eq_refl Hfuel Hp1 eq_refl).
    eexists. split; [reflexivity|]. cbn [systick_millis Nat.add].
    rewrite advance_uint32 by exact Hnow. unfold U32.wrap, U32.modulus.
    f_equal. lia.
Qed.

Lemma check_rearms_from_now_witness :
  timers (one_timer 4294967295 3 4294967290) !! 1%N
    = Some (mkDelay 3 4294967290) /\
  NonBlockingDelay_check 1%N (one_timer 4294967295 3 4294967290)
    = Some (true, one_timer 4294967295 3 4294967295) /\
  exists m2,
    wait_ticks 5 1%N (one_timer 4294967295 3 4294967295)
      = Some (Some (Z.to_nat 3), m2) /\
    systick_millis m2 = (4294967295 + 3) mod 2 ^ 32.
Proof.
  split; [reflexivity|]. split; [reflexivity|].
  refine (proj2 (proj2 (proj2 (proj2
    (check_rearms_from_now (one_timer 4294967295 3 4294967290) 1%N
       (mkDelay 3 4294967290) (one_timer 4294967295 3 4294967295)
       eq_refl _ _ eq_refl)))) 5%nat _).
  - unfold U32.uint32, U32.modulus; cbn; lia.
  - unfold U32.uint32, U32.modulus; cbn; lia.
  - cbn; lia.
Defined.

End Check.

(** * Calls as functions of the struct and the counter *)

Section Calls.

Implicit Types (m : Machine) (p q : N) (d : NonBlockingDelay) (c : call).

Lemma exec_call_eq c p d m :
  timers m !! p = Some d ->
  exec_call c p m =
  Some (fst (call_outcome c (systick_millis m) d),
        with_timer p (snd (call_outcome c (systick_millis m) d)) m).
Proof.
  intros Hp. destruct c as [interval|interval| |]; cbn [exec_call call_outcome];
    unfold bind.
  - now rewrite (Init_eq p d m interval Hp).
  - now rewrite (setInterval_eq p d m interval Hp).
  - now rewrite (reset_eq p d m Hp).
  - rewrite (check_eq p d m Hp).
    destruct (U32.sub (systick_millis m) (previousMillis d) >=? interval_ms d);
      cbn [fst snd]; [reflexivity|].
    now rewrite with_timer_id.
Qed.

(** A call on the timer at [q] leaves the counter and every other timer as
    they were. *)
Lemma exec_call_frame c q m r m' :
  exec_call c q m = Some (r, m') ->
  systick_millis m' = systick_millis m /\
  forall p, p <> q -> timers m' !! p = timers m !! p.
Proof.
  destruct (timers m !! q) as [dq|] eqn:Hq.
  - rewrite (exec_call_eq c q dq m Hq). intros [= _ <-].
    split; [reflexivity|]. intros p Hne. now apply with_timer_lookup_ne.
  - now rewrite (exec_call_dangling c q m Hq).
Qed.

(** C10: [Init], [setInterval], [reset] and [check] are total on every
    machine that holds the timer, and their return value and the new
    contents of the struct are a function ([call_outcome]) of the old
    contents of the struct and the value of the counter alone: two runs on
    machines that agree on these two, whatever else they hold and wherever
    the struct lives, return the same value and leave the same struct. *)
Theorem calls_deterministic c p1 p2 m1 m2 d :
  timers m1 !! p1 = Some d ->
  timers m2 !! p2 = Some d ->
  systick_millis m1 = systick_millis m2 ->
  exists r d' m1' m2',
    exec_call c p1 m1 = Some (r, m1') /\
    exec_call c p2 m2 = Some (r, m2') /\
    timers m1' !! p1 = Some d' /\
    timers m2' !! p2 = Some d' /\
    (r, d') = call_outcome c (systick_millis m1) d.
Proof.
  intros H1 H2 Hc.
  rewrite (exec_call_eq c p1 d m1 H1), (exec_call_eq c p2 d m2 H2), <- Hc.
  eexists _, _, _, _. split; [reflexivity|]. split; [reflexivity|].
  split; [apply with_timer_lookup|]. split; [apply with_timer_lookup|].
  now destruct (call_outcome c (systick_millis m1) d).
Qed.

Lemma calls_deterministic_witness :
  exists r d' m1' m2',
    exec_call CallCheck 1%N (one_timer 1500 1000 250) = Some (r, m1') /\
    exec_call CallCheck 9%N
      (mkMachine 1500 {[ 9%N := mkDelay 1000 250; 4%N := mkDelay 1 2 ]})
      = Some (r, m2') /\
    timers m1' !! 1%N = Some d' /\
    timers m2' !! 9%N = Some d' /\
    (r, d') = (Some true, mkDelay 1000 1500).
Proof.
  apply (calls_deterministic CallCheck 1%N 9%N (one_timer 1500 1000 250)
           (mkMachine 1500 {[ 9%N := mkDelay 1000 250; 4%N := mkDelay 1 2 ]})
           (mkDelay 1000 250)); reflexivity.
Defined.

End Calls.

(** * Runs of the machine *)

Section Runs.

Implicit Types (m : Machine) (p q : N) (d : NonBlockingDelay) (e : event).

Lemma Init_dangling p interval m :
  timers m !! p = None -> NonBlockingDelay_Init p interval m = None.
Proof.
  intros Hp. unfold NonBlockingDelay_Init, bind,
    NonBlockingDelay_setInterval, store_interval_ms.
  now rewrite Hp.
Qed.

Lemma counter_values_head (c : Z) (es : list event) :
  In c (counter_values c es).
Proof.
  induction es as [|[|q k] es IH]; cbn [counter_values]; auto using in_eq.
Qed.

Lemma mark_held_incl (past past' : list Z) p m :
  incl past past' -> mark_held past p m -> mark_held past' p m.
Proof. intros Hincl (d & Hp & Hin). exists d. auto. Qed.

(** One step of the machine, interrupt or call on any timer, keeps the mark
    of the timer at [p] among the values the counter has held. *)
Lemma step_mark_held (past : list Z) p e m m' :
  In (systick_millis m) past ->
  mark_held past p m ->
  step e m = Some (tt, m') ->
  mark_held (systick_millis m' :: past) p m'.
Proof.
  intros Hnow (d & Hp & Hin) Hstep. destruct e as [|q c]; cbn [step] in Hstep.
  - rewrite SysTick_Handler_eq in Hstep. injection Hstep as <-.
    exists d. split; [exact Hp|]. now right.
  - unfold bind in Hstep.
    destruct (exec_call c q m) as [[r m1]|] eqn:Hcall; [|discriminate].
    injection Hstep as <-.
    destruct (decide (p = q)) as [->|Hne].
    + rewrite (exec_call_eq c q d m Hp) in Hcall. injection Hcall as _ <-.
      eexists. split; [apply with_timer_lookup|]. right.
      destruct c as [interval|interval| |]; cbn [call_outcome snd]; auto.
      destruct (_ >=? _); cbn [snd previousMillis]; auto.
    + destruct (exec_call_frame c q m r m1 Hcall) as [_ Hframe].
      exists d. rewrite (Hframe p Hne). split; [exact Hp|]. now right.
Qed.

Lemma step_systick e m m' :
  step e m = Some (tt, m') ->
  systick_millis m' =
  match e with Tick => U32.incr (systick_millis m) | _ => systick_millis m end.
Proof.
  destruct e as [|q c]; cbn [step].
  - rewrite SysTick_Handler_eq. now intros [= <-].
  - unfold bind. destruct (exec_call c q m) as [[r m1]|] eqn:Hcall;
      [|discriminate].
    intros [= <-]. now destruct (exec_call_frame c q m r m1 Hcall).
Qed.

Lemma run_mark_held p (es : list event) :
  forall (past : list Z) m m',
    In (systick_millis m) past ->
    mark_held past p m ->
    run es m = Some (tt, m') ->
    mark_held (past ++ counter_values (systick_millis m) es) p m'.
Proof.
  induction es as [|e es IH]; intros past m m' Hnow Hm Hrun;
    cbn [run] in Hrun.
  - injection Hrun as <-. revert Hm. apply mark_held_incl, incl_appl, incl_refl.
  - unfold bind in Hrun.
    destruct (step e m) as [[[] m1]|] eqn:Hstep; [|discriminate].
    pose proof (step_mark_held past p e m m1 Hnow Hm Hstep) as Hm1.
    pose proof (step_systick e m m1 Hstep) as Hc1.
    specialize (IH (systick_millis m1 :: past) m1 m' (in_eq _ _) Hm1 Hrun).
    revert IH. apply mark_held_incl. intros x Hx. apply in_or_app.
    apply in_app_or in Hx as [[<-|Hx]|Hx]; [right|now left|right];
      rewrite ?Hc1 in *; destruct e; cbn [counter_values];
      auto using counter_values_head, in_cons.
Qed.

(** C8: after [NonBlockingDelay_Init] on the timer at [p], whatever
    interrupts and calls (on this or on other timers) follow, the
    [previousMillis] of the timer is one of the values the counter has held
    since the initialisation, the value of each instant of the run and no
    other; and each single step preserves that the mark is among the values
    held so far. *)
Theorem previousMillis_was_held p :
  (forall m0 interval m1 (es : list event) m2,
     NonBlockingDelay_Init p interval m0 = Some (tt, m1) ->
     run es m1 = Some (tt, m2) ->
     mark_held (counter_values (systick_millis m0) es) p m2) /\
  (forall (past : list Z) e m m',
     In (systick_millis m) past ->
     mark_held past p m ->
     step e m = Some (tt, m') ->
     mark_held (systick_millis m' :: past) p m').
Proof.
  split; [|intros past e m m'; apply step_mark_held].
  intros m0 interval m1 es m2 Hinit Hrun.
  destruct (timers m0 !! p) as [d0|] eqn:Hp0;
    [|now rewrite (Init_dangling p interval m0 Hp0) in Hinit].
  rewrite (Init_eq p d0 m0 interval Hp0) in Hinit. injection Hinit as <-.
  set (c0 := systick_millis m0) in *.
  assert (Hm1 : mark_held [c0] p (with_timer p (mkDelay interval c0) m0)).
  { eexists. split; [apply with_timer_lookup|]. now left. }
  pose proof (run_mark_held p es [c0]
                (with_timer p (mkDelay interval c0) m0) m2
                (in_eq _ _) Hm1 Hrun) as H.
  revert H. apply mark_held_incl. cbn [systick_millis with_timer app].
  intros x [<-|Hx]; [apply counter_values_head|exact Hx].
Qed.

Lemma previousMillis_was_held_witness :
  NonBlockingDelay_Init 1%N 2 (one_timer 4294967294 77 123456)
    = Some (tt, one_timer 4294967294 2 4294967294) /\
  run [Tick; Call 1%N CallCheck; Tick; Call 1%N CallCheck; Tick;
       Call 1%N (CallSetInterval 9); Call 1%N CallCheck]
      (one_timer 4294967294 2 4294967294)
    = Some (tt, one_timer 1 9 0) /\
  mark_held [4294967294; 4294967295; 0; 1] 1%N (one_timer 1 9 0).
Proof.
  split; [reflexivity|]. split; [reflexivity|].
  exact (proj1 (previousMillis_was_held 1%N)
           (one_timer 4294967294 77 123456) 2
           (one_timer 4294967294 2 4294967294)
           [Tick; Call 1%N CallCheck; Tick; Call 1%N CallCheck; Tick;
            Call 1%N (CallSetInterval 9); Call 1%N CallCheck]
           (one_timer 1 9 0) eq_refl eq_refl).
Defined.

(** Every step keeps the counter and all fields within [uint32_t], so the
    range assumptions of the results above hold along every run that starts
    from such a machine. *)
Lemma step_wf e m m' :
  wf_machine m -> wf_event e -> step e m = Some (tt, m') -> wf_machine m'.
Proof.
  intros [Hc Hts] He Hstep. destruct e as [|q c]; cbn [step] in Hstep.
  - rewrite SysTick_Handler_eq in Hstep. injection Hstep as <-.
    split; [apply incr_range|exact Hts].
  - unfold bind in Hstep.
    destruct (timers m !! q) as [dq|] eqn:Hq;
      [|now rewrite (exec_call_dangling c q m Hq) in Hstep].
    rewrite (exec_call_eq c q dq m Hq) in Hstep. injection Hstep as <-.
    destruct (Hts q dq Hq) as [Hi Hm].
    split; [exact Hc|]. intros p d Hp.
    destruct (decide (q = p)) as [->|Hne].
    + rewrite with_timer_lookup in Hp. injection Hp as <-.
      destruct c as [interval|interval| |]; cbn [call_outcome snd] in *;
        try (split; assumption).
      destruct (_ >=? _); cbn [snd]; split; assumption.
    + rewrite with_timer_lookup_ne in Hp by exact Hne. exact (Hts p d Hp).
Qed.

(** Along every run of interrupts and calls whose interval arguments are
    [uint32_t] values, the counter and both fields of every timer stay
    within [0, 2^32): the wrap-around of the counter is the only place where
    a value could leave the range, and it is reduced there. *)
Lemma run_wf (es : list event) :
  forall m m',
    wf_machine m -> Forall wf_event es -> run es m = Some (tt, m') ->
    wf_machine m'.
Proof.
  induction es as [|e es IH]; intros m m' Hm Hes Hrun; cbn [run] in Hrun.
  - now injection Hrun as <-.
  - apply Forall_cons_iff in Hes as [He Hes]. unfold bind in Hrun.
    destruct (step e m) as [[[] m1]|] eqn:Hstep; [|discriminate].
    exact (IH m1 m' (step_wf e m m1 Hm He Hstep) Hes Hrun).
Qed.

Lemma run_wf_witness :
  run [Tick; Call 1%N CallCheck; Call 1%N (CallSetInterval 9)]
      (one_timer 4294967295 5 4294967290)
    = Some (tt, one_timer 0 9 0) /\
  wf_machine (one_timer 0 9 0).
Proof.
  split; [reflexivity|].
  apply (run_wf [Tick; Call 1%N CallCheck; Call 1%N (CallSetInterval 9)]
           (one_timer 4294967295 5 4294967290) (one_timer 0 9 0)).
  - split; [unfold U32.uint32, U32.modulus; cbn; lia|].
    intros p d Hp. unfold one_timer in Hp. cbn [timers] in Hp.
    apply lookup_singleton_Some in Hp as [_ <-].
    unfold U32.uint32, U32.modulus; cbn; lia.
  - repeat constructor. unfold U32.uint32, U32.modulus; cbn; lia.
  - reflexivity.
Defined.

End Runs.

(** * The scenarios of the documentation *)

(** A timer of 1000 ms configured at counter 0 is silent after 999
    interrupts, fires after the 1000th and is marked at 1000, and is silent
    again 500 interrupts later. *)
Example one_second_timer :
  (NonBlockingDelay_Init 1%N 1000 ;;
   ticks 999 ;; b1 <- NonBlockingDelay_check 1%N ;;
   ticks 1 ;; b2 <- NonBlockingDelay_check 1%N ;;
   ticks 500 ;; b3 <- NonBlockingDelay_check 1%N ;;
   ret (b1, b2, b3)) (one_timer 0 0 0)
  = Some ((false, true, false), one_timer 1500 1000 1000).
Proof. vm_compute. reflexivity. Qed.

(** Marked six milliseconds before the counter overflows and read ten
    milliseconds later, at counter 4: an interval of 10 has elapsed, an
    interval of 11 has not. *)
Example across_the_overflow :
  ticks 10 (one_timer 4294967290 10 4294967290)
    = Some (tt, one_timer 4 10 4294967290) /\
  NonBlockingDelay_check 1%N (one_timer 4 10 4294967290)
    = Some (true, one_timer 4 10 4) /\
  NonBlockingDelay_check 1%N (one_timer 4 11 4294967290)
    = Some (false, one_timer 4 11 4294967290).
Proof. repeat split; vm_compute; reflexivity. Qed.

(** Two timers on one counter: a call on one never changes the other. *)
Example independent_timers :
  (NonBlockingDelay_Init 1%N 10 ;; NonBlockingDelay_Init 2%N 25 ;;
   ticks 10 ;; b1 <- NonBlockingDelay_check 1%N ;;
   b2 <- NonBlockingDelay_check 2%N ;; ret (b1, b2))
    (mkMachine 0 {[ 1%N := mkDelay 0 0; 2%N := mkDelay 0 0 ]})
  = Some ((true, false),
          mkMachine 10 {[ 1%N := mkDelay 10 10; 2%N := mkDelay 25 0 ]}).
Proof. vm_compute. reflexivity. Qed.

(** * The counter over long times *)

Section LongRuns.

Implicit Types (m : Machine) (p q : N) (d : NonBlockingDelay).

(** The difference seen by the check grows with the interrupts, modulo
    2^32, from whatever it was. *)
Lemma sub_advance_from (n : nat) (c mark : Z) :
  U32.sub (advance n c) mark = U32.wrap (U32.sub c mark + Z.of_nat n).
Proof.
  rewrite <- sub_wrap_l, wrap_advance, sub_wrap_l.
  unfold U32.sub, U32.wrap. rewrite Zplus_mod_idemp_l. f_equal. lia.
Qed.

(** The check knows the time since the mark only modulo 2^32: [n]
    interrupts after the timer was marked, for any [n], it fires exactly
    when [interval_ms <= n mod 2^32]; and 2^32 further interrupts before the
    call change neither what it returns nor the machine it leaves. *)
Theorem check_sees_elapsed_mod m p d (n : nat) :
  timers m !! p = Some d ->
  previousMillis d = systick_millis m ->
  uint32 (systick_millis m) ->
  exists b m',
    (ticks n ;; NonBlockingDelay_check p) m = Some (b, m') /\
    (b = true <-> interval_ms d <= Z.of_nat n mod 2 ^ 32) /\
    (ticks (n + Z.to_nat (2 ^ 32)) ;; NonBlockingDelay_check p) m
      = Some (b, m').
Proof.
  intros Hp Hmark Hc. unfold bind. rewrite !ticks_eq.
  assert (Hsame : advance (n + Z.to_nat (2 ^ 32)) (systick_millis m)
                  = advance n (systick_millis m)).
  { rewrite !advance_uint32 by exact Hc. unfold U32.wrap, U32.modulus.
    rewrite Nat2Z.inj_add, Z2Nat.id by lia.
    rewrite Z.add_assoc, <- (Z.mul_1_l (2 ^ 32)) at 1.
    apply Z_mod_plus_full. }
  rewrite Hsame.
  rewrite (check_eq p d) by exact Hp.
  cbn [systick_millis]. rewrite Hmark, sub_advance.
  change (Z.of_nat n mod 2 ^ 32) with (U32.wrap (Z.of_nat n)).
  destruct (U32.wrap (Z.of_nat n) >=? interval_ms d) eqn:Hcmp.
  - apply geb_true_iff in Hcmp. eexists true, _.
    split; [reflexivity|]. split; [|reflexivity]. now split.
  - apply geb_false_iff in Hcmp. eexists false, _.
    split; [reflexivity|]. split; [|reflexivity].
    split; [discriminate|lia].
Qed.

Lemma check_sees_elapsed_mod_witness :
  timers (one_timer 4294967290 8 4294967290) !! 1%N
    = Some (mkDelay 8 4294967290) /\
  exists b m',
    (ticks 10 ;; NonBlockingDelay_check 1%N)
      (one_timer 4294967290 8 4294967290) = Some (b, m') /\
    (b = true <-> interval_ms (mkDelay 8 4294967290)
                  <= Z.of_nat 10 mod 2 ^ 32) /\
    (ticks (10 + Z.to_nat (2 ^ 32)) ;; NonBlockingDelay_check 1%N)
      (one_timer 4294967290 8 4294967290) = Some (b, m').
Proof.
  split; [reflexivity|].
  apply (check_sees_elapsed_mod (one_timer 4294967290 8 4294967290) 1%N
           (mkDelay 8 4294967290) 10 eq_refl eq_refl).
  unfold U32.uint32, U32.modulus, one_timer, systick_millis. lia.
Defined.

(** ** Arbitrary polling schedules *)

Lemma poll_from p (interval : Z) (gaps : list nat) :
  0 < interval ->
  Forall (fun g => Z.of_nat g + interval <= 2 ^ 32) gaps ->
  forall m mark,
    timers m !! p = Some (mkDelay interval mark) ->
    U32.sub (systick_millis m) mark < interval ->
    exists m',
      poll gaps p m
        = Some (ideal_timer interval (U32.sub (systick_millis m) mark) gaps,
                m') /\
      exists mark',
        timers m' !! p = Some (mkDelay interval mark') /\
        U32.sub (systick_millis m') mark' < interval.
Proof.
  intros Hpos Hgaps.
  induction Hgaps as [|g gaps Hg _ IH]; intros m mark Hp Hlt.
  - exists m. split; [reflexivity|]. now exists mark.
  - cbn [poll ideal_timer]. unfold bind at 1. rewrite ticks_eq.
    unfold bind at 1.
    rewrite (check_eq p (mkDelay interval mark)) by exact Hp.
    cbn [systick_millis interval_ms previousMillis].
    pose proof (sub_range (systick_millis m) mark) as [Hlo _].
    rewrite sub_advance_from, wrap_uint32
      by (unfold U32.uint32, U32.modulus; lia).
    destruct (U32.sub (systick_millis m) mark + Z.of_nat g >=? interval)
      eqn:Hcmp.
    + destruct (IH (with_timer p
                      (mkDelay interval (advance g (systick_millis m)))
                      (mkMachine (advance g (systick_millis m)) (timers m)))
                   (advance g (systick_millis m)))
        as (m' & Hpoll & Hinv).
      * apply with_timer_lookup.
      * rewrite with_timer_systick. cbn [systick_millis].
        now rewrite sub_diag.
      * rewrite with_timer_systick in Hpoll. cbn [systick_millis] in Hpoll.
        rewrite sub_diag in Hpoll.
        exists m'. split; [|exact Hinv]. unfold bind. now rewrite Hpoll.
    + apply geb_false_iff in Hcmp.
      destruct (IH (mkMachine (advance g (systick_millis m)) (timers m)) mark)
        as (m' & Hpoll & Hinv).
      * exact Hp.
      * cbn [systick_millis].
        rewrite sub_advance_from, wrap_uint32
          by (unfold U32.uint32, U32.modulus; lia).
        exact Hcmp.
      * cbn [systick_millis] in Hpoll.
        rewrite sub_advance_from, wrap_uint32 in Hpoll
          by (unfold U32.uint32, U32.modulus; lia).
        exists m'. split; [|exact Hinv]. unfold bind. now rewrite Hpoll.
Qed.

(** However irregularly the main loop polls a freshly marked timer with a
    non-zero interval, as long as no two polls are more than
    [2^32 - interval_ms] interrupts apart, [NonBlockingDelay_check] answers
    as a timer on unbounded time would: it fires at the first poll at which
    [interval_ms] milliseconds have passed since it last fired, and never
    before. The overflows of the counter do not show. *)
Theorem poll_refines_ideal_timer m p d (gaps : list nat) :
  timers m !! p = Some d ->
  previousMillis d = systick_millis m ->
  0 < interval_ms d ->
  Forall (fun g => Z.of_nat g + interval_ms d <= 2 ^ 32) gaps ->
  exists m',
    poll gaps p m = Some (ideal_timer (interval_ms d) 0 gaps, m').
Proof.
  intros Hp Hmark Hpos Hgaps. destruct d as [interval mark].
  cbn [interval_ms previousMillis] in *. subst mark.
  destruct (poll_from p interval gaps Hpos Hgaps m (systick_millis m) Hp)
    as (m' & Hpoll & _).
  - now rewrite sub_diag.
  - rewrite sub_diag in Hpoll. now exists m'.
Qed.

Lemma poll_refines_ideal_timer_witness :
  timers (one_timer 4294967290 5 4294967290) !! 1%N
    = Some (mkDelay 5 4294967290) /\
  exists m',
    poll [3; 4; 1; 9; 5]%nat 1%N (one_timer 4294967290 5 4294967290)
      = Some ([false; true; false; true; true], m').
Proof.
  split; [reflexivity|].
  apply (poll_refines_ideal_timer (one_timer 4294967290 5 4294967290) 1%N
           (mkDelay 5 4294967290) [3; 4; 1; 9; 5]%nat eq_refl eq_refl).
  - reflexivity.
  - repeat constructor; cbn; lia.
Defined.

(** Polled every millisecond, the timer on unbounded time fires at the
    multiples of the interval. *)
Lemma ideal_timer_every_ms (interval : Z) (n : nat) :
  0 < interval ->
  forall elapsed,
    0 <= elapsed < interval ->
    ideal_timer interval elapsed (repeat 1%nat n)
    = map (fun k => (elapsed + Z.of_nat k) mod interval =? 0) (seq 1 n).
Proof.
  intros Hpos. induction n as [|n IH]; intros elapsed Hel; [reflexivity|].
  cbn [repeat ideal_timer seq map]. rewrite <- seq_shift, map_map.
  destruct (elapsed + Z.of_nat 1 >=? interval) eqn:Hcmp.
  - apply geb_true_iff in Hcmp.
    assert (Heq : elapsed + Z.of_nat 1 = interval) by lia.
    rewrite Heq, Z_mod_same_full. cbn [Z.eqb]. f_equal.
    rewrite IH by lia. apply map_ext. intros k. f_equal.
    replace (elapsed + Z.of_nat (S k)) with (Z.of_nat k + 1 * interval) by lia.
    now rewrite Z_mod_plus_full.
  - apply geb_false_iff in Hcmp.
    rewrite (Z.mod_small (elapsed + Z.of_nat 1)) by lia.
    replace (elapsed + Z.of_nat 1 =? 0) with false
      by (symmetry; apply Z.eqb_neq; lia).
    f_equal. rewrite IH by lia. apply map_ext. intros k. f_equal. f_equal.
    lia.
Qed.

(** A main loop that polls once per millisecond sees the timer fire at the
    [k]-th millisecond after the mark exactly when [interval_ms] divides
    [k]: there is no drift, for runs of any length, across any number of
    overflows of the counter. *)
Theorem fires_every_interval m p d (n : nat) :
  timers m !! p = Some d ->
  previousMillis d = systick_millis m ->
  0 < interval_ms d < 2 ^ 32 ->
  exists m',
    poll (repeat 1%nat n) p m
    = Some (map (fun k => Z.of_nat k mod interval_ms d =? 0) (seq 1 n), m').
Proof.
  intros Hp Hmark [Hpos Hhi]. destruct d as [interval mark].
  cbn [interval_ms previousMillis] in *. subst mark.
  destruct (poll_from p interval (repeat 1%nat n) Hpos) with
    (m := m) (mark := systick_millis m) as (m' & Hpoll & _).
  - apply List.Forall_forall. intros g Hg. apply repeat_spec in Hg. subst g. lia.
  - exact Hp.
  - now rewrite sub_diag.
  - rewrite sub_diag, ideal_timer_every_ms in Hpoll by lia.
    now exists m'.
Qed.

Lemma fires_every_interval_witness :
  timers (one_timer 4294967293 3 4294967293) !! 1%N
    = Some (mkDelay 3 4294967293) /\
  exists m',
    poll (repeat 1%nat 7) 1%N (one_timer 4294967293 3 4294967293)
    = Some ([false; false; true; false; false; true; false], m').
Proof.
  split; [reflexivity|].
  apply (fires_every_interval (one_timer 4294967293 3 4294967293) 1%N
           (mkDelay 3 4294967293) 7 eq_refl eq_refl).
  cbn; lia.
Defined.

End LongRuns.

(** * Several timers, and the order of operations *)

Section Composition.

Implicit Types (m : Machine) (p q : N) (d : NonBlockingDelay) (e : event).

Lemma with_timer_swap p q d d' m :
  p <> q ->
  with_timer q d' (with_timer p d m) = with_timer p d (with_timer q d' m).
Proof.
  intros Hne. unfold with_timer. cbn. f_equal. now apply insert_insert_ne.
Qed.

Lemma setInterval_dangling p interval m :
  timers m !! p = None -> NonBlockingDelay_setInterval p interval m = None.
Proof.
  intros Hp. unfold NonBlockingDelay_setInterval, store_interval_ms.
  now rewrite Hp.
Qed.

Lemma reset_dangling p m :
  timers m !! p = None -> NonBlockingDelay_reset p m = None.
Proof.
  intros Hp. unfold NonBlockingDelay_reset, bind, read_systick,
    store_previousMillis.
  now rewrite Hp.
Qed.

(** Storing an interval and resetting can be done in either order, on one
    timer or on two, with the same machine as the result (or with no result
    in both orders, when one of the addresses holds no timer); so
    [NonBlockingDelay_Init] is also [reset] followed by [setInterval]. *)
Theorem setInterval_reset_commute p q interval m :
  (NonBlockingDelay_setInterval p interval ;; NonBlockingDelay_reset q) m
  = (NonBlockingDelay_reset q ;; NonBlockingDelay_setInterval p interval) m
  /\
  NonBlockingDelay_Init p interval m
  = (NonBlockingDelay_reset p ;; NonBlockingDelay_setInterval p interval) m.
Proof.
  assert (Hcomm : forall q',
    (NonBlockingDelay_setInterval p interval ;; NonBlockingDelay_reset q') m
    = (NonBlockingDelay_reset q' ;; NonBlockingDelay_setInterval p interval) m).
  { clear q. intros q. unfold bind.
    destruct (timers m !! p) as [dp|] eqn:Hp;
      destruct (timers m !! q) as [dq|] eqn:Hq.
    - rewrite (setInterval_eq p dp m interval Hp), (reset_eq q dq m Hq).
      destruct (decide (p = q)) as [->|Hne].
      + assert (dp = dq) as -> by congruence.
        rewrite (reset_eq q (mkDelay interval (previousMillis dq)))
          by apply with_timer_lookup.
        rewrite (setInterval_eq q (mkDelay (interval_ms dq) (systick_millis m)))
          by apply with_timer_lookup.
        cbn [interval_ms previousMillis].
        now rewrite !with_timer_twice, with_timer_systick.
      + rewrite (reset_eq q dq)
          by (rewrite with_timer_lookup_ne by exact Hne; exact Hq).
        rewrite (setInterval_eq p dp)
          by (rewrite with_timer_lookup_ne by (intros ->; now apply Hne);
              exact Hp).
        rewrite with_timer_systick. now rewrite with_timer_swap by exact Hne.
    - rewrite (setInterval_eq p dp m interval Hp), (reset_dangling q m Hq).
      apply reset_dangling.
      rewrite with_timer_lookup_ne by (intros ->; congruence). exact Hq.
    - rewrite (setInterval_dangling p interval m Hp), (reset_eq q dq m Hq).
      symmetry. apply setInterval_dangling.
      rewrite with_timer_lookup_ne by (intros ->; congruence). exact Hp.
    - now rewrite (setInterval_dangling p interval m Hp),
        (reset_dangling q m Hq). }
  split; [apply Hcomm|]. unfold NonBlockingDelay_Init. apply Hcomm.
Qed.

(** ** Timers do not see each other *)

Lemma same_view_refl p m : same_view p m m.
Proof. now split. Qed.

Lemma run_same_view p (es : list event) :
  forall m1 m2 m1',
    same_view p m1 m2 ->
    run es m1 = Some (tt, m1') ->
    exists m2',
      run (List.filter (concerns p) es) m2 = Some (tt, m2') /\
      same_view p m1' m2'.
Proof.
  induction es as [|e es IH]; intros m1 m2 m1' Hview Hrun; cbn [run] in Hrun.
  - injection Hrun as <-. now exists m2.
  - unfold bind in Hrun.
    destruct (step e m1) as [[[] m1a]|] eqn:Hstep; [|discriminate].
    destruct Hview as [Hc Ht].
    destruct e as [|q c]; cbn [List.filter concerns].
    + cbn [step] in Hstep. rewrite SysTick_Handler_eq in Hstep.
      injection Hstep as <-.
      destruct (IH (mkMachine (U32.incr (systick_millis m1)) (timers m1))
                   (mkMachine (U32.incr (systick_millis m2)) (timers m2))
                   m1') as (m2' & Hrun2 & Hview2);
        [split; cbn; congruence|exact Hrun|].
      exists m2'. split; [|exact Hview2]. cbn [run step]. unfold bind.
      now rewrite SysTick_Handler_eq.
    + cbn [step] in Hstep. unfold bind in Hstep.
      destruct (exec_call c q m1) as [[r m1b]|] eqn:Hcall; [|discriminate].
      injection Hstep as <-.
      destruct (N.eqb_spec q p) as [->|Hne].
      * destruct (timers m1 !! p) as [d|] eqn:Hp;
          [|now rewrite (exec_call_dangling c p m1 Hp) in Hcall].
        rewrite (exec_call_eq c p d m1 Hp) in Hcall.
        injection Hcall as _ <-.
        destruct (IH (with_timer p
                        (snd (call_outcome c (systick_millis m1) d)) m1)
                     (with_timer p
                        (snd (call_outcome c (systick_millis m2) d)) m2)
                     m1') as (m2' & Hrun2 & Hview2);
          [|exact Hrun|].
        { split; [now rewrite !with_timer_systick|].
          now rewrite !with_timer_lookup, Hc. }
        exists m2'. split; [|exact Hview2]. cbn [run step]. unfold bind.
        now rewrite (exec_call_eq c p d m2) by congruence.
      * destruct (exec_call_frame c q m1 r m1b Hcall) as [Hc' Hframe].
        apply (IH m1b m2 m1'); [|exact Hrun].
        split; [congruence|].
        rewrite Hframe by (intros ->; now apply Hne). exact Ht.
Qed.

(** What a run leaves in the timer at [p] and in the counter is decided by
    the interrupts and the calls on [p] alone: striking every call on
    another timer from the run, and starting from any machine that shows the
    same counter and the same timer at [p], gives the same counter and the
    same timer at [p]. *)
Theorem run_ignores_other_timers p (es : list event) m1 m2 m1' :
  same_view p m1 m2 ->
  run es m1 = Some (tt, m1') ->
  exists m2',
    run (List.filter (concerns p) es) m2 = Some (tt, m2') /\
    systick_millis m2' = systick_millis m1' /\
    timers m2' !! p = timers m1' !! p.
Proof.
  intros Hview Hrun.
  destruct (run_same_view p es m1 m2 m1' Hview Hrun) as (m2' & Hrun2 & Hc & Ht).
  exists m2'. auto.
Qed.

Lemma run_ignores_other_timers_witness :
  same_view 1%N
    (mkMachine 0 {[ 1%N := mkDelay 2 0; 2%N := mkDelay 1 0 ]})
    (one_timer 0 2 0) /\
  run [Tick; Call 2%N CallCheck; Call 1%N CallCheck; Tick;
       Call 2%N (CallInit 7); Call 1%N CallCheck]
      (mkMachine 0 {[ 1%N := mkDelay 2 0; 2%N := mkDelay 1 0 ]})
    = Some (tt, mkMachine 2 {[ 1%N := mkDelay 2 2; 2%N := mkDelay 7 2 ]}) /\
  exists m2',
    run (List.filter (concerns 1%N)
           [Tick; Call 2%N CallCheck; Call 1%N CallCheck; Tick;
            Call 2%N (CallInit 7); Call 1%N CallCheck])
        (one_timer 0 2 0) = Some (tt, m2') /\
    systick_millis m2' = 2 /\
    timers m2' !! 1%N = Some (mkDelay 2 2).
Proof.
  split; [split; reflexivity|]. split; [reflexivity|].
  refine (run_ignores_other_timers 1%N
            [Tick; Call 2%N CallCheck; Call 1%N CallCheck; Tick;
             Call 2%N (CallInit 7); Call 1%N CallCheck]
            (mkMachine 0 {[ 1%N := mkDelay 2 0; 2%N := mkDelay 1 0 ]})
            (one_timer 0 2 0)
            (mkMachine 2 {[ 1%N := mkDelay 2 2; 2%N := mkDelay 7 2 ]})
            _ _).
  - split; reflexivity.
  - reflexivity.
Defined.

End Composition.

(** * The counter has one writer *)

Section SingleWriter.

Implicit Types (m : Machine) (p q : N) (d : NonBlockingDelay) (e : event).

Lemma with_timer_dom p d d' m :
  timers m !! p = Some d ->
  dom (timers (with_timer p d' m)) = dom (timers m).
Proof.
  intros Hp. unfold with_timer. cbn [timers].
  apply dom_insert_lookup_L. now exists d.
Qed.

Lemma step_counter_dom e m m' :
  step e m = Some (tt, m') ->
  systick_millis m' = advance (tick_count [e]) (systick_millis m) /\
  dom (timers m') = dom (timers m).
Proof.
  destruct e as [|q c]; cbn [step tick_count].
  - rewrite SysTick_Handler_eq. now intros [= <-].
  - unfold bind.
    destruct (timers m !! q) as [dq|] eqn:Hq;
      [|now rewrite (exec_call_dangling c q m Hq)].
    rewrite (exec_call_eq c q dq m Hq). intros [= <-].
    split; [reflexivity|]. now apply (with_timer_dom q dq).
Qed.

(** Only the interrupt handler writes [systick_millis]: after any run the
    counter has advanced by the number of interrupts in it, modulo 2^32,
    whatever calls the main context made in between; and no call creates or
    removes a timer. *)
Theorem run_counter (es : list event) m m' :
  uint32 (systick_millis m) ->
  run es m = Some (tt, m') ->
  systick_millis m'
    = (systick_millis m + Z.of_nat (tick_count es)) mod 2 ^ 32 /\
  dom (timers m') = dom (timers m).
Proof.
  intros Hc Hrun.
  change ((systick_millis m + Z.of_nat (tick_count es)) mod 2 ^ 32)
    with (U32.wrap (systick_millis m + Z.of_nat (tick_count es))).
  rewrite <- (advance_uint32 (tick_count es) (systick_millis m) Hc).
  clear Hc. revert m Hrun.
  induction es as [|e es IH]; intros m Hrun; cbn [run] in Hrun.
  - now injection Hrun as <-.
  - unfold bind in Hrun.
    destruct (step e m) as [[[] m1]|] eqn:Hstep; [|discriminate].
    destruct (step_counter_dom e m m1 Hstep) as [Hc1 Hd1].
    destruct (IH m1 Hrun) as [Hc' Hd'].
    rewrite Hc', Hd', Hd1, Hc1. split; [|reflexivity].
    destruct e; cbn [tick_count]; [|reflexivity].
    change (advance 1 (systick_millis m)) with (U32.incr (systick_millis m)).
    now rewrite advance_comm.
Qed.

Lemma run_counter_witness :
  run [Tick; Call 1%N CallCheck; Tick; Call 1%N CallReset; Tick]
      (one_timer 4294967294 2 4294967290)
    = Some (tt, one_timer 1 2 0) /\
  systick_millis (one_timer 1 2 0)
    = (4294967294 + Z.of_nat 3) mod 2 ^ 32 /\
  dom (timers (one_timer 1 2 0))
    = dom (timers (one_timer 4294967294 2 4294967290)).
Proof.
  split; [reflexivity|].
  refine (run_counter [Tick; Call 1%N CallCheck; Tick; Call 1%N CallReset; Tick]
            (one_timer 4294967294 2 4294967290) (one_timer 1 2 0) _ _).
  - unfold U32.uint32, U32.modulus; cbn; lia.
  - reflexivity.
Defined.

End SingleWriter.

(** * Start-up *)

Section StartUp.

Context {H : Type} (hal : Hal H).

(** [NonBlockingDelay_initSysTick] asks for a reload value of
    [coreFrequency / 1000] clock cycles, which is at least 1 and makes the
    tick at most one millisecond long, short by less than 1000 cycles a
    second. It returns only when [SysTick_Config] accepts that value; it
    hangs for every clock below 1000 Hz, not only for a clock of 0, and
    then without having touched the timer. *)
Theorem initSysTick_outcome (h : H) :
  uint32 (CMU_ClockFreqGet_CORE hal h) ->
  let f := CMU_ClockFreqGet_CORE hal h in
  let t := f / 1000 in
  (f < 1000 -> NonBlockingDelay_initSysTick hal h = HangsForever h) /\
  (1000 <= f ->
   1 <= t <= 4294967 /\
   1000 * t <= f < 1000 * t + 1000 /\
   NonBlockingDelay_initSysTick hal h =
   if fst (SysTick_Config hal t h) =? 0
   then Returns (snd (SysTick_Config hal t h))
   else HangsForever (snd (SysTick_Config hal t h))).
Proof.
  intros [Hlo Hhi] f t. unfold U32.modulus in Hhi. fold f in Hlo, Hhi.
  unfold NonBlockingDelay_initSysTick. fold f. fold t.
  pose proof (Z.div_mod f 1000 ltac:(lia)) as Hdm.
  pose proof (Z.mod_pos_bound f 1000 ltac:(lia)) as Hm.
  fold t in Hdm. split.
  - intros Hsmall. replace (t =? 0) with true; [reflexivity|].
    symmetry. apply Z.eqb_eq. unfold t. apply Z.div_small. lia.
  - intros Hbig. assert (1 <= t <= 4294967) as Ht by lia.
    split; [exact Ht|]. split; [lia|].
    replace (t =? 0) with false by (symmetry; apply Z.eqb_neq; lia).
    destruct (SysTick_Config hal t h) as [rc h']. cbn [fst snd].
    now destruct (rc =? 0).
Qed.

End StartUp.

Lemma initSysTick_outcome_witness :
  NonBlockingDelay_initSysTick (bench_hal 38400000) [] = Returns [38400] /\
  NonBlockingDelay_initSysTick (bench_hal 999) [] = HangsForever [].
Proof.
  pose proof (initSysTick_outcome (bench_hal 38400000) []) as Hfast.
  pose proof (initSysTick_outcome (bench_hal 999) []) as Hslow.
  split.
  - refine (proj2 (proj2 (proj2 (Hfast _) _))).
    + unfold U32.uint32, U32.modulus; cbn; lia.
    + cbn; lia.
  - refine (proj1 (Hslow _) _).
    + unfold U32.uint32, U32.modulus; cbn; lia.
    + cbn; lia.
Defined.
